(** * Reminder App (streamlit_app.py): a shallow embedding of the reminder
    lifecycle, the time arithmetic, the duration formatter and the JSON
    persistence layer.

    Modelling conventions:
    - a [datetime.datetime] is a [Z] count of seconds; a [timedelta] is the
      signed [Z] number of seconds it spans ([delta.total_seconds()] on
      whole-second deltas);
    - every call to [datetime.datetime.now()] is an explicit argument;
    - the in-memory reminder dicts are [reminder] records, with the status
      literal as an inductive [Status];
    - the handlers mutate the dict object being rendered; that object sits at
      some position of [st.session_state.reminders], so each handler takes
      that position;
    - the JSON file holds a list of dicts whose values are [pyval]s;
      [json.dump]/[json.load] are the identity on strings and [null]. *)

From Stdlib Require Import String Ascii ZArith List Bool Lia.
From Stdlib Require Import Sorting.Permutation Sorting.Sorted.
From Stdlib Require Import Strings.HexString Relations.Relation_Operators.
Import ListNotations.
Open Scope string_scope.
Open Scope list_scope.
Open Scope Z_scope.

(** String concatenation, Python's [+] on [str]. *)
Infix "+s" := String.append (at level 60, right associativity).

(** ** Status literals (lines 11-14) *)

Inductive Status := Pending | Due | Dismissed | Completed.

Definition Status_eqb (a b : Status) : bool :=
  match a, b with
  | Pending, Pending | Due, Due | Dismissed, Dismissed
  | Completed, Completed => true
  | _, _ => false
  end.

Definition STATUS_literal (s : Status) : string :=
  match s with
  | Pending => "pending"
  | Due => "due"
  | Dismissed => "dismissed"
  | Completed => "completed"
  end.

(** ** A reminder dict (lines 121-128) *)

Record reminder := mkReminder {
  id : string;
  task : string;
  due_time : Z;
  created_at : Z;
  status : Status;
  completed_at : option Z
}.

Definition with_status (s : Status) (r : reminder) : reminder :=
  mkReminder (id r) (task r) (due_time r) (created_at r) s (completed_at r).

Definition with_completed_at (c : option Z) (r : reminder) : reminder :=
  mkReminder (id r) (task r) (due_time r) (created_at r) (status r) c.

(** ** Decimal rendering of a non-negative integer ([f"{int(x)}"]) *)

Fixpoint digits_aux (fuel : nat) (n : Z) (acc : string) : string :=
  match fuel with
  | O => acc
  | S f =>
      let acc' := String (ascii_of_nat (48 + Z.to_nat (n mod 10))%nat) acc in
      if Z.ltb n 10 then acc' else digits_aux f (n / 10) acc'
  end.

Definition str_int (n : Z) : string :=
  digits_aux (S (Z.to_nat (Z.log2 n))) n "".

(** [' '.join(parts)] *)
Fixpoint join (sep : string) (parts : list string) : string :=
  match parts with
  | [] => ""
  | [p] => p
  | p :: ps => p +s sep +s join sep ps
  end.

(** ** format_timedelta_dhms (lines 30-59) *)

Definition format_timedelta_dhms (seconds : Z) : string :=
  if seconds <=? 0 then
    let abs_seconds := Z.abs seconds in
    let days := abs_seconds / 86400 in
    let rem := abs_seconds mod 86400 in
    let hours := rem / 3600 in
    let rem := rem mod 3600 in
    let minutes := rem / 60 in
    let secs := rem mod 60 in
    let parts := if days >? 0 then [str_int days +s "d"] else [] in
    let parts := if hours >? 0 then parts ++ [str_int hours +s "h"] else parts in
    let parts := if minutes >? 0 then parts ++ [str_int minutes +s "m"] else parts in
    let parts := if (secs >? 0) || (match parts with [] => true | _ => false end)
                 then parts ++ [str_int secs +s "s"] else parts in
    if abs_seconds >? 0 then
      "Overdue by " +s (match parts with [] => "0s" | _ => join " " parts end) +s "!"
    else "Due NOW!"
  else
    let days := seconds / 86400 in
    let rem := seconds mod 86400 in
    let hours := rem / 3600 in
    let rem := rem mod 3600 in
    let minutes := rem / 60 in
    let secs := rem mod 60 in
    let parts := if days >? 0 then [str_int days +s "d"] else [] in
    let parts := if hours >? 0 then parts ++ [str_int hours +s "h"] else parts in
    let parts := if minutes >? 0 then parts ++ [str_int minutes +s "m"] else parts in
    let parts := if (match parts with [] => true | _ => false end)
                    || ((days =? 0) && (hours =? 0) && (minutes =? 0))
                 then parts ++ [str_int secs +s "s"] else parts in
    join " " parts.

Example format_zero : format_timedelta_dhms 0 = "Due NOW!". Proof. reflexivity. Qed.
Example format_minus5 : format_timedelta_dhms (-5) = "Overdue by 5s!". Proof. reflexivity. Qed.
Example format_45 : format_timedelta_dhms 45 = "45s". Proof. reflexivity. Qed.
Example format_big : format_timedelta_dhms (2*86400 + 3*3600 + 5*60 + 10) = "2d 3h 5m". Proof. reflexivity. Qed.

(** ** calculate_due_time (lines 16-28)

    Timestamps are whole seconds since [datetime.min] (0001-01-01 00:00:00);
    the latest one, [datetime.max], is 9999-12-31 23:59:59. Arithmetic that
    leaves this range raises [OverflowError], which nothing in the script
    catches. *)

Inductive py_result (A : Type) :=
  | Returns (a : A)
  | Raises (exn : string).

Arguments Returns {A} a.
Arguments Raises {A} exn.

Definition DATETIME_MAX : Z := 3652058 * 86400 + 86399.

(** [datetime.timedelta(seconds=...)]: at most 999999999 days either way. *)
Definition timedelta (seconds : Z) : py_result Z :=
  if (-999999999 <=? seconds / 86400) && (seconds / 86400 <=? 999999999)
  then Returns seconds else Raises "OverflowError".

(** [datetime + timedelta] *)
Definition datetime_add (t delta : Z) : py_result Z :=
  let r := t + delta in
  if (0 <=? r) && (r <=? DATETIME_MAX) then Returns r else Raises "OverflowError".

Definition unit_seconds (unit : string) : option Z :=
  if String.eqb unit "seconds" then Some 1
  else if String.eqb unit "minutes" then Some 60
  else if String.eqb unit "hours" then Some 3600
  else if String.eqb unit "days" then Some 86400
  else None.

(** Returns the due time and the message passed to [st.error], if any. *)
Definition calculate_due_time (value : Z) (unit : string) (now : Z)
  : py_result (Z * option string) :=
  match unit_seconds unit with
  | Some k =>
      match timedelta (value * k) with
      | Returns delta =>
          match datetime_add now delta with
          | Returns due => Returns (due, None)
          | Raises e => Raises e
          end
      | Raises e => Raises e
      end
  | None => Returns (now, Some ("Unknown time unit: " +s unit))
  end.

(** The options of the [Unit:] selectbox (line 115). *)
Definition time_unit_options : list string :=
  ["seconds"; "minutes"; "hours"; "days"].

(** ** JSON persistence (lines 61-98) *)

(** Values a reminder dict holds: [None], a [str] or a [datetime]. *)
Inductive pyval := PNone | PStr (s : string) | PDatetime (t : Z).

Record pyreminder := mkPyReminder {
  p_id : pyval;
  p_task : pyval;
  p_due_time : pyval;
  p_created_at : pyval;
  p_status : pyval;
  p_completed_at : pyval
}.

(** The dict held in [st.session_state.reminders] for a reminder. *)
Definition to_py (r : reminder) : pyreminder :=
  mkPyReminder (PStr (id r)) (PStr (task r)) (PDatetime (due_time r))
    (PDatetime (created_at r)) (PStr (STATUS_literal (status r)))
    (match completed_at r with None => PNone | Some t => PDatetime t end).

(** Python truthiness of a value. *)
Definition truthy (v : pyval) : bool :=
  match v with
  | PNone => false
  | PStr s => negb (String.eqb s "")
  | PDatetime _ => true
  end.

(** The textual form of a timestamp ([isoformat]/[fromisoformat]): the
    timestamp's canonical numeral, with its inverse parser. *)
Definition isoformat (t : Z) : string := HexString.of_Z t.
Definition fromisoformat (s : string) : Z := HexString.to_Z s.

Definition ser_datetime (v : pyval) : pyval :=
  match v with PDatetime t => PStr (isoformat t) | _ => v end.

Definition des_datetime (v : pyval) : pyval :=
  match v with PStr s => PDatetime (fromisoformat s) | _ => v end.

Definition serialize_reminder (sr : pyreminder) : pyreminder :=
  mkPyReminder (p_id sr) (p_task sr) (ser_datetime (p_due_time sr))
    (ser_datetime (p_created_at sr)) (p_status sr)
    (match p_completed_at sr with
     | PDatetime t => PStr (isoformat t)
     | v => v
     end).

Definition deserialize_reminder (r : pyreminder) : pyreminder :=
  mkPyReminder (p_id r) (p_task r) (des_datetime (p_due_time r))
    (des_datetime (p_created_at r)) (p_status r)
    (let v := p_completed_at r in
     if truthy v then match v with PStr s => PDatetime (fromisoformat s) | _ => v end
     else v).

(** The JSON array written to [REMINDERS_FILE] (a successful write). *)
Definition save_reminders_to_file (reminders_list : list pyreminder) : list pyreminder :=
  map serialize_reminder reminders_list.

(** [None] stands for a missing file. *)
Definition load_reminders_from_file (file : option (list pyreminder)) : list pyreminder :=
  match file with
  | None => []
  | Some loaded_reminders => map deserialize_reminder loaded_reminders
  end.

(** ** Application state: the session's reminders and the file on disk *)

Record app := mkApp {
  reminders : list reminder;
  file : option (list pyreminder)
}.

(** Mutate the in-memory collection, then [save_reminders_to_file]. The
    write is taken to succeed: a failing [open] (the [IOError] branch, lines
    73-77, which shows an error and leaves the old file) is outside this
    model, and so are the statements below about the file. *)
Definition commit (rs : list reminder) : app :=
  mkApp rs (Some (save_reminders_to_file (map to_py rs))).

(** ** add (form submit handler, lines 119-132)

    [t_due] is the [now()] read inside [calculate_due_time], [t_created] the
    one read for [created_at]. An exception raised by [calculate_due_time]
    ends the script run before the append: the collection and the file keep
    their contents. *)

Definition add (task_description : string) (time_value : Z) (time_unit : string)
    (new_id : string) (t_due t_created : Z) (s : app) : app :=
  if String.eqb task_description "" then s
  else
    match calculate_due_time time_value time_unit t_due with
    | Raises _ => s
    | Returns (due, _) =>
        let new_reminder :=
          mkReminder new_id task_description due t_created Pending None in
        commit (reminders s ++ [new_reminder])
    end.

(** ** Handlers acting on the rendered reminder at position [i] *)

Fixpoint update_nth {A} (n : nat) (f : A -> A) (l : list A) : list A :=
  match l, n with
  | [], _ => []
  | x :: t, O => f x :: t
  | x :: t, S n' => x :: update_nth n' f t
  end.

(** Rendered in the Active section: status is neither dismissed nor
    completed (lines 146-152). *)
Definition is_active (r : reminder) : bool :=
  match status r with Pending | Due => true | _ => false end.

Definition is_completed (r : reminder) : bool :=
  match status r with Completed => true | _ => false end.

(** Mark-as-completed checkbox (lines 196-201). *)
Definition complete (i : nat) (now : Z) (s : app) : app :=
  match nth_error (reminders s) i with
  | Some r =>
      if is_active r && negb (Status_eqb (status r) Completed) then
        commit (update_nth i (fun r =>
                  with_completed_at (Some now) (with_status Completed r)) (reminders s))
      else s
  | None => s
  end.

(** Un-checking a completed reminder (lines 238-243). *)
Definition uncomplete (i : nat) (s : app) : app :=
  match nth_error (reminders s) i with
  | Some r =>
      if is_completed r then
        commit (update_nth i (fun r =>
                  with_completed_at None (with_status Pending r)) (reminders s))
      else s
  | None => s
  end.

(** Dismiss buttons of the Active (lines 210-214) and Completed (lines
    252-256) sections; dismissed reminders are not rendered. *)
Definition dismiss (i : nat) (s : app) : app :=
  match nth_error (reminders s) i with
  | Some r =>
      if is_active r || is_completed r then
        commit (update_nth i (with_status Dismissed) (reminders s))
      else s
  | None => s
  end.

(** ** Stable sorting ([sorted], Python's Timsort is stable)

    [before x y] holds when [x] must be placed strictly before [y]; an element
    is inserted after every element it does not precede, so equal keys keep
    their input order, also with [reverse=True]. *)

Fixpoint insert_by {A} (before : A -> A -> bool) (x : A) (l : list A) : list A :=
  match l with
  | [] => [x]
  | y :: t => if before x y then x :: y :: t else y :: insert_by before x t
  end.

Definition sort_by {A} (before : A -> A -> bool) (l : list A) : list A :=
  fold_left (fun acc x => insert_by before x acc) l [].

(** [key=lambda r: r['due_time']] *)
Definition active_before (a b : reminder) : bool := due_time a <? due_time b.

(** [key=lambda r: r.get('completed_at') or r['created_at']] *)
Definition completed_key (r : reminder) : Z :=
  match completed_at r with Some t => t | None => created_at r end.

(** [reverse=True] *)
Definition completed_before (a b : reminder) : bool :=
  completed_key b <? completed_key a.

(** ** Classification (lines 143-156) *)

Definition classify (rs : list reminder) : list reminder * list reminder :=
  (sort_by active_before (filter is_active rs),
   sort_by completed_before (filter is_completed rs)).

(** ** Pending-to-due transition (lines 159-171) *)

Definition becomes_due (now : Z) (r : reminder) : bool :=
  Status_eqb (status r) Pending && (due_time r - now <=? 0).

Definition mark_due (now : Z) (r : reminder) : reminder :=
  if becomes_due now r then with_status Due r else r.

Record view := mkView {
  active : list reminder;
  completed : list reminder;
  became_due : list reminder
}.

(** One render pass with no user input at time [now]. The sorted lists hold
    the same dict objects as the collection, so the transitions made while
    walking the Active list show in the collection and in the rendered
    lists. [became_due] holds the reminders whose task is toasted. The file
    is written only when a transition happened. *)
Definition evaluate (now : Z) (s : app) : app * view :=
  match reminders s with
  | [] => (s, mkView [] [] [])
  | rs =>
      let '(sorted_active, sorted_completed) := classify rs in
      let fired := map (mark_due now) (filter (becomes_due now) sorted_active) in
      let s' := match fired with
                | [] => s
                | _ => commit (map (mark_due now) rs)
                end in
      (s', mkView (map (mark_due now) sorted_active) sorted_completed fired)
  end.

(** ** Every operation on the application state *)

Inductive step : app -> app -> Prop :=
  | step_add task_description time_value time_unit new_id t_due t_created s :
      (* the Unit selectbox (line 115) and [min_value=1] (line 113) *)
      In time_unit time_unit_options -> 1 <= time_value ->
      step s (add task_description time_value time_unit new_id t_due t_created s)
  | step_complete i now s : step s (complete i now s)
  | step_uncomplete i s : step s (uncomplete i s)
  | step_dismiss i s : step s (dismiss i s)
  | step_evaluate now s : step s (fst (evaluate now s)).

(** Repeated render passes at the given times; the views, in order. *)
Fixpoint evaluate_all (nows : list Z) (s : app) : app * list view :=
  match nows with
  | [] => (s, [])
  | now :: rest =>
      let '(s1, v1) := evaluate now s in
      let '(s2, vs) := evaluate_all rest s1 in
      (s2, v1 :: vs)
  end.

(** Example: "Buy milk" added at time 100 with a 10 second offset. *)
Definition buy_milk : app :=
  add "Buy milk" 10 "seconds" "id-1" 100 100 (mkApp [] None).

Example buy_milk_pending :
  map status (active (snd (evaluate 100 buy_milk))) = [Pending]
  /\ became_due (snd (evaluate 100 buy_milk)) = [].
Proof. split; reflexivity. Qed.

Example buy_milk_due :
  map status (active (snd (evaluate 111 buy_milk))) = [Due]
  /\ map id (became_due (snd (evaluate 111 buy_milk))) = ["id-1"].
Proof. split; reflexivity. Qed.

(** ** Refresh loop (lines 264-269): the page polls again while some
    reminder is pending or due. *)
Definition active_reminders_exist (rs : list reminder) : bool :=
  existsb (fun r => existsb (Status_eqb (status r)) [Pending; Due]) rs.

(** * Lemmas *)

(** ** Position-wise updates *)

Lemma length_update_nth {A} (n : nat) (f : A -> A) (l : list A) :
  length (update_nth n f l) = length l.
Proof.
  revert n; induction l as [|x t IH]; intros [|n]; simpl; auto.
Qed.

Lemma nth_error_update_nth_eq {A} (n : nat) (f : A -> A) (l : list A) (x : A) :
  nth_error l n = Some x -> nth_error (update_nth n f l) n = Some (f x).
Proof.
  revert n; induction l as [|y t IH]; intros [|n] H; simpl in *; try discriminate.
  - congruence.
  - auto.
Qed.

Lemma nth_error_update_nth_neq {A} (n m : nat) (f : A -> A) (l : list A) :
  m <> n -> nth_error (update_nth n f l) m = nth_error l m.
Proof.
  revert n m; induction l as [|y t IH]; intros [|n] [|m] H; simpl; auto.
  congruence.
Qed.

Lemma nth_error_update_nth {A} (n m : nat) (f : A -> A) (l : list A) (x : A) :
  nth_error l m = Some x ->
  nth_error (update_nth n f l) m = Some (if Nat.eqb m n then f x else x).
Proof.
  intros H. destruct (Nat.eqb_spec m n) as [->|Hne].
  - now apply nth_error_update_nth_eq.
  - now rewrite nth_error_update_nth_neq.
Qed.

(** ** Stable insertion sort *)

Lemma Permutation_filter_bool {A} (p : A -> bool) (l l' : list A) :
  Permutation l l' -> Permutation (filter p l) (filter p l').
Proof.
  induction 1; simpl.
  - constructor.
  - destruct (p x); auto.
  - destruct (p x), (p y); auto using perm_swap, Permutation_refl.
  - eauto using Permutation_trans.
Qed.

Section Sorting.
Context {A : Type} (before : A -> A -> bool) (R : A -> A -> Prop).
Hypothesis before_R : forall x y, before x y = true -> R x y.
Hypothesis not_before_R : forall x y, before x y = false -> R y x.

Lemma insert_by_perm (x : A) (l : list A) :
  Permutation (insert_by before x l) (x :: l).
Proof.
  induction l as [|y t IH]; simpl; [auto|].
  destruct (before x y); [auto|].
  eapply Permutation_trans; [apply perm_skip, IH | apply perm_swap].
Qed.

Lemma sort_by_perm_acc (l acc : list A) :
  Permutation (fold_left (fun acc x => insert_by before x acc) l acc) (l ++ acc).
Proof.
  revert acc; induction l as [|x t IH]; intros acc; simpl; [auto|].
  eapply Permutation_trans; [apply IH|].
  eapply Permutation_trans; [apply Permutation_app_head, insert_by_perm|].
  apply Permutation_sym, Permutation_middle.
Qed.

Lemma sort_by_perm (l : list A) : Permutation (sort_by before l) l.
Proof.
  unfold sort_by. rewrite <- (app_nil_r l) at 2. apply sort_by_perm_acc.
Qed.

Lemma insert_by_sorted (x : A) (l : list A) :
  Sorted R l -> Sorted R (insert_by before x l).
Proof.
  induction 1 as [|y t Ht IH Hhd]; simpl; [auto|].
  destruct (before x y) eqn:E.
  - constructor; [constructor; auto | constructor; auto].
  - constructor; [exact IH|].
    destruct t as [|z t']; simpl.
    + constructor. now apply not_before_R.
    + inversion Hhd; subst.
      destruct (before x z); constructor; auto.
Qed.

Lemma sort_by_sorted (l : list A) : Sorted R (sort_by before l).
Proof.
  unfold sort_by.
  assert (Hacc : Sorted R (@nil A)) by constructor.
  revert Hacc; generalize (@nil A) as acc.
  induction l as [|x t IH]; intros acc Hacc; simpl; auto.
  apply IH, insert_by_sorted, Hacc.
Qed.
End Sorting.

Lemma sort_by_map {A} (before : A -> A -> bool) (f : A -> A) (l : list A) :
  (forall a b, before (f a) (f b) = before a b) ->
  sort_by before (map f l) = map f (sort_by before l).
Proof.
  intros Hf. unfold sort_by.
  assert (Hins : forall x acc,
    insert_by before (f x) (map f acc) = map f (insert_by before x acc)).
  { intros x acc; induction acc as [|y t IH]; simpl; auto.
    rewrite Hf. destruct (before x y); simpl; congruence. }
  assert (Hacc : forall acc,
    fold_left (fun acc x => insert_by before x acc) (map f l) (map f acc)
    = map f (fold_left (fun acc x => insert_by before x acc) l acc)).
  { induction l as [|x t IH]; intros acc; simpl; auto.
    rewrite Hins. apply IH. }
  apply (Hacc []).
Qed.

Lemma filter_map_comm {A} (p : A -> bool) (f : A -> A) (l : list A) :
  (forall a, p (f a) = p a) -> filter p (map f l) = map f (filter p l).
Proof.
  intros Hp. rewrite filter_map_swap. f_equal. apply filter_ext. auto.
Qed.

(** ** The pending-to-due transition *)

Lemma becomes_due_is_active (now : Z) (r : reminder) :
  becomes_due now r = true -> is_active r = true.
Proof.
  unfold becomes_due, is_active. destruct (status r); simpl; congruence.
Qed.

Lemma becomes_due_mark_due (now : Z) (r : reminder) :
  becomes_due now (mark_due now r) = false.
Proof.
  unfold mark_due. destruct (becomes_due now r) eqn:E; [reflexivity | exact E].
Qed.

Lemma mark_due_idem (now : Z) (r : reminder) :
  mark_due now (mark_due now r) = mark_due now r.
Proof.
  unfold mark_due at 1. now rewrite becomes_due_mark_due.
Qed.

Lemma mark_due_not_becoming (now : Z) (r : reminder) :
  becomes_due now r = false -> mark_due now r = r.
Proof. unfold mark_due. intros ->. reflexivity. Qed.

Lemma mark_due_fields (now : Z) (r : reminder) :
  id (mark_due now r) = id r /\ task (mark_due now r) = task r
  /\ due_time (mark_due now r) = due_time r
  /\ created_at (mark_due now r) = created_at r
  /\ completed_at (mark_due now r) = completed_at r.
Proof.
  unfold mark_due. destruct (becomes_due now r); repeat split.
Qed.

Lemma mark_due_status (now : Z) (r : reminder) :
  status (mark_due now r) = status r
  \/ (status r = Pending /\ status (mark_due now r) = Due).
Proof.
  unfold mark_due, becomes_due.
  destruct (status r) eqn:E; simpl; auto.
  destruct (due_time r - now <=? 0); simpl; auto.
Qed.

Lemma is_active_mark_due (now : Z) (r : reminder) :
  is_active (mark_due now r) = is_active r.
Proof.
  unfold is_active. destruct (mark_due_status now r) as [->|[-> ->]]; auto.
Qed.

Lemma is_completed_mark_due (now : Z) (r : reminder) :
  is_completed (mark_due now r) = is_completed r.
Proof.
  unfold is_completed. destruct (mark_due_status now r) as [->|[-> ->]]; auto.
Qed.

Lemma active_before_mark_due (now : Z) (a b : reminder) :
  active_before (mark_due now a) (mark_due now b) = active_before a b.
Proof.
  unfold active_before.
  destruct (mark_due_fields now a) as (_ & _ & -> & _).
  destruct (mark_due_fields now b) as (_ & _ & -> & _).
  reflexivity.
Qed.

(** The render pass, unfolded on a non-empty collection. *)
Lemma evaluate_cons (now : Z) (s : app) (x : reminder) (t : list reminder) :
  reminders s = x :: t ->
  let sa := sort_by active_before (filter is_active (x :: t)) in
  let sc := sort_by completed_before (filter is_completed (x :: t)) in
  let fired := map (mark_due now) (filter (becomes_due now) sa) in
  evaluate now s =
    (match fired with [] => s | _ => commit (map (mark_due now) (x :: t)) end,
     mkView (map (mark_due now) sa) sc fired).
Proof.
  intros Hrs. unfold evaluate. rewrite Hrs. reflexivity.
Qed.

(** The collection after a render pass is the collection with every
    reminder passed through [mark_due]. *)
Lemma evaluate_reminders (now : Z) (s : app) :
  reminders (fst (evaluate now s)) = map (mark_due now) (reminders s).
Proof.
  destruct (reminders s) as [|x t] eqn:Hrs.
  - unfold evaluate. rewrite Hrs. simpl. exact Hrs.
  - rewrite (evaluate_cons now s x t Hrs). cbv zeta. cbn [fst].
    destruct (filter (becomes_due now)
                (sort_by active_before (filter is_active (x :: t)))) as [|y u] eqn:Hf;
      cbn [map]; [|reflexivity].
    rewrite Hrs. symmetry.
    transitivity (map (fun r => r) (x :: t)); [|apply map_id].
    change (map (mark_due now) (x :: t) = map (fun r => r) (x :: t)).
    apply map_ext_in. intros r Hr.
    apply mark_due_not_becoming.
    destruct (becomes_due now r) eqn:E; [|reflexivity].
    assert (Hin : In r (filter (becomes_due now)
                 (sort_by active_before (filter is_active (x :: t))))).
    { apply filter_In. split; [|exact E].
      eapply Permutation_in; [apply Permutation_sym, sort_by_perm|].
      apply filter_In. split; [exact Hr | now apply becomes_due_is_active with now]. }
    rewrite Hf in Hin. destruct Hin.
Qed.

(** ** What a single operation does to the reminder at a position *)

(** The fields a handler never writes. *)
Definition same_identity (r' r : reminder) : Prop :=
  id r' = id r /\ task r' = task r /\ due_time r' = due_time r
  /\ created_at r' = created_at r.

Lemma update_slot (l : list reminder) (j i : nat) (f : reminder -> reminder)
    (r0 r : reminder) :
  nth_error l j = Some r0 -> status r0 <> Dismissed ->
  (forall x, same_identity (f x) x) ->
  nth_error l i = Some r ->
  exists r', nth_error (update_nth j f l) i = Some r'
    /\ same_identity r' r /\ (status r = Dismissed -> r' = r).
Proof.
  intros Hj Hnd Hf Hi.
  rewrite (nth_error_update_nth j i f l r Hi).
  destruct (Nat.eqb_spec i j) as [->|Hne].
  - rewrite Hj in Hi. injection Hi as <-.
    exists (f r0). repeat split; try apply Hf. intros H; contradiction.
  - exists r. repeat split.
Qed.

Lemma guard_not_dismissed (r : reminder) :
  is_active r || is_completed r = true -> status r <> Dismissed.
Proof.
  unfold is_active, is_completed. destruct (status r); simpl; congruence.
Qed.

Lemma step_slot (s s' : app) (i : nat) (r : reminder) :
  step s s' -> nth_error (reminders s) i = Some r ->
  exists r', nth_error (reminders s') i = Some r'
    /\ same_identity r' r /\ (status r = Dismissed -> r' = r).
Proof.
  intros Hstep Hi.
  assert (Hkeep : exists r', nth_error (reminders s) i = Some r'
    /\ same_identity r' r /\ (status r = Dismissed -> r' = r)).
  { exists r. repeat split; auto. }
  destruct Hstep as [td tv tu nid t1 t2 s0 Hu Hv | j now s0 | j s0 | j s0 | now s0].
  - unfold add. destruct (String.eqb td ""); [exact Hkeep|].
    destruct (calculate_due_time tv tu t1) as [[due err]|e]; [|exact Hkeep].
    cbn [reminders commit]. exists r. repeat split; auto.
    rewrite nth_error_app1; [exact Hi|]. apply nth_error_Some. congruence.
  - unfold complete. destruct (nth_error (reminders s0) j) as [r0|] eqn:Hj;
      [|exact Hkeep].
    destruct (is_active r0 && negb (Status_eqb (status r0) Completed)) eqn:G;
      [|exact Hkeep].
    apply andb_true_iff in G as [G _].
    apply (update_slot _ j i _ r0 r Hj); auto.
    + apply guard_not_dismissed. rewrite G. reflexivity.
    + intros x. repeat split.
  - unfold uncomplete. destruct (nth_error (reminders s0) j) as [r0|] eqn:Hj;
      [|exact Hkeep].
    destruct (is_completed r0) eqn:G; [|exact Hkeep].
    apply (update_slot _ j i _ r0 r Hj); auto.
    + apply guard_not_dismissed. rewrite G, orb_true_r. reflexivity.
    + intros x. repeat split.
  - unfold dismiss. destruct (nth_error (reminders s0) j) as [r0|] eqn:Hj;
      [|exact Hkeep].
    destruct (is_active r0 || is_completed r0) eqn:G; [|exact Hkeep].
    apply (update_slot _ j i _ r0 r Hj); auto.
    + apply guard_not_dismissed. exact G.
    + intros x. repeat split.
  - rewrite evaluate_reminders, nth_error_map, Hi. cbn [option_map].
    exists (mark_due now r). destruct (mark_due_fields now r) as (H1 & H2 & H3 & H4 & _).
    repeat split; auto.
    intros Hd. apply mark_due_not_becoming. unfold becomes_due. rewrite Hd. reflexivity.
Qed.

Lemma reach_slot (s s' : app) (i : nat) (r : reminder) :
  clos_refl_trans app step s s' -> nth_error (reminders s) i = Some r ->
  exists r', nth_error (reminders s') i = Some r'
    /\ same_identity r' r /\ (status r = Dismissed -> r' = r).
Proof.
  intros Hreach. revert r. induction Hreach as [x y Hxy|x|x y z _ IH1 _ IH2];
    intros r Hi.
  - exact (step_slot x y i r Hxy Hi).
  - exists r. repeat split; auto.
  - destruct (IH1 r Hi) as (r1 & H1 & (A1 & B1 & C1 & D1) & E1).
    destruct (IH2 r1 H1) as (r2 & H2 & (A2 & B2 & C2 & D2) & E2).
    exists r2. split; [exact H2|]. split; [repeat split; congruence|].
    intros Hd. specialize (E1 Hd). subst r1. apply E2, Hd.
Qed.

(** ** The completion-time invariant *)

(** [completed_at] is set exactly on Completed reminders; a dismissed
    reminder carries whatever it had. *)
Definition completed_at_consistent (r : reminder) : Prop :=
  match status r with
  | Pending | Due => completed_at r = None
  | Completed => completed_at r <> None
  | Dismissed => True
  end.

Lemma Forall_update_nth {A} (P : A -> Prop) (n : nat) (f : A -> A) (l : list A) :
  Forall P l -> (forall x, P (f x)) -> Forall P (update_nth n f l).
Proof.
  intros Hl Hf. revert n; induction Hl as [|x t Hx Ht IH]; intros [|n]; simpl;
    constructor; auto.
Qed.

Lemma step_consistent (s s' : app) :
  step s s' -> Forall completed_at_consistent (reminders s) ->
  Forall completed_at_consistent (reminders s').
Proof.
  intros Hstep Hs.
  destruct Hstep as [td tv tu nid t1 t2 s0 Hu Hv | j now s0 | j s0 | j s0 | now s0].
  - unfold add. destruct (String.eqb td ""); [exact Hs|].
    destruct (calculate_due_time tv tu t1) as [[due err]|e]; [|exact Hs].
    apply Forall_app. split; [exact Hs|]. repeat constructor.
  - unfold complete. destruct (nth_error (reminders s0) j); [|exact Hs].
    destruct (_ && _); [|exact Hs].
    apply Forall_update_nth; [exact Hs|]. intros x. unfold completed_at_consistent.
    simpl. discriminate.
  - unfold uncomplete. destruct (nth_error (reminders s0) j); [|exact Hs].
    destruct (is_completed _); [|exact Hs].
    apply Forall_update_nth; [exact Hs|]. intros x. reflexivity.
  - unfold dismiss. destruct (nth_error (reminders s0) j); [|exact Hs].
    destruct (_ || _); [|exact Hs].
    apply Forall_update_nth; [exact Hs|]. intros x. exact I.
  - rewrite evaluate_reminders. apply Forall_map.
    eapply Forall_impl; [|exact Hs]. intros x Hx.
    unfold completed_at_consistent in *.
    destruct (mark_due_fields now x) as (_ & _ & _ & _ & ->).
    destruct (mark_due_status now x) as [->|[Hp ->]]; [exact Hx|].
    rewrite Hp in Hx. exact Hx.
Qed.

Lemma filter_becomes_due_marked (now : Z) (l : list reminder) :
  filter (becomes_due now) (map (mark_due now) l) = [].
Proof.
  induction l as [|x t IH]; simpl; [reflexivity|].
  rewrite becomes_due_mark_due. exact IH.
Qed.

Lemma filter_completed_marked (now : Z) (l : list reminder) :
  filter is_completed (map (mark_due now) l) = filter is_completed l.
Proof.
  induction l as [|x t IH]; simpl; [reflexivity|].
  rewrite is_completed_mark_due, IH.
  destruct (is_completed x) eqn:C; [|reflexivity].
  f_equal. apply mark_due_not_becoming.
  unfold becomes_due. unfold is_completed in C.
  destruct (status x); simpl in *; congruence.
Qed.

(** A second render pass at the same time over a marked collection. *)
Lemma evaluate_marked (now : Z) (s1 : app) (rs : list reminder) :
  reminders s1 = map (mark_due now) rs ->
  evaluate now s1 =
    (s1, mkView (map (mark_due now) (sort_by active_before (filter is_active rs)))
                (sort_by completed_before (filter is_completed rs)) []).
Proof.
  intros Hr1. destruct rs as [|x t].
  - unfold evaluate. rewrite Hr1. reflexivity.
  - rewrite (evaluate_cons now s1 (mark_due now x) (map (mark_due now) t) Hr1).
    change (mark_due now x :: map (mark_due now) t) with (map (mark_due now) (x :: t)).
    rewrite filter_completed_marked.
    rewrite (filter_map_comm is_active (mark_due now)) by apply is_active_mark_due.
    rewrite sort_by_map by apply active_before_mark_due.
    rewrite filter_becomes_due_marked. cbn [map].
    rewrite map_map. f_equal. f_equal. apply map_ext. apply mark_due_idem.
Qed.

(** ** Notifications of a render pass *)

Lemma filter_none {A} (f : A -> bool) (l : list A) :
  (forall x, In x l -> f x = false) -> filter f l = [].
Proof.
  induction l as [|x t IH]; intros H; simpl; [reflexivity|].
  rewrite (H x (or_introl eq_refl)). apply IH. intros y Hy. apply H. now right.
Qed.

Lemma filter_filter_comm {A} (p q : A -> bool) (l : list A) :
  filter p (filter q l) = filter q (filter p l).
Proof.
  induction l as [|x t IH]; simpl; [reflexivity|].
  destruct (p x) eqn:Ep, (q x) eqn:Eq; simpl; rewrite ?Ep, ?Eq, IH; reflexivity.
Qed.

Lemma id_unique (l : list reminder) (x y : reminder) :
  NoDup (map id l) -> In x l -> In y l -> id x = id y -> x = y.
Proof.
  induction l as [|z t IH]; intros Hnd Hx Hy Hid; [destruct Hx|].
  inversion Hnd as [|? ? Hz Ht]; subst.
  destruct Hx as [<-|Hx], Hy as [<-|Hy]; auto.
  - exfalso. apply Hz. rewrite Hid. apply in_map, Hy.
  - exfalso. apply Hz. rewrite <- Hid. apply in_map, Hx.
Qed.

Lemma filter_id_nodup (l : list reminder) (r : reminder) :
  NoDup (map id l) -> In r l ->
  filter (fun x => String.eqb (id x) (id r)) l = [r].
Proof.
  induction l as [|z t IH]; intros Hnd Hr; [destruct Hr|].
  inversion Hnd as [|? ? Hz Ht]; subst. simpl.
  destruct Hr as [<-|Hr].
  - rewrite String.eqb_refl. f_equal. apply filter_none.
    intros x Hx. apply String.eqb_neq. intros E. apply Hz.
    rewrite <- E. apply in_map, Hx.
  - rewrite (IH Ht Hr).
    destruct (String.eqb_spec (id z) (id r)) as [E|]; [|reflexivity].
    exfalso. apply Hz. rewrite E. apply in_map, Hr.
Qed.

Lemma evaluate_became_due (now : Z) (s : app) (y : reminder) :
  In y (became_due (snd (evaluate now s))) ->
  exists x, In x (reminders s) /\ becomes_due now x = true /\ y = mark_due now x.
Proof.
  destruct (reminders s) as [|z t] eqn:Hrs.
  - unfold evaluate. rewrite Hrs. simpl. intros [].
  - rewrite (evaluate_cons now s z t Hrs). cbn [snd became_due].
    intros Hy. apply in_map_iff in Hy as (x & <- & Hx).
    apply filter_In in Hx as [Hx Hb].
    apply (Permutation_in _ (sort_by_perm _ _)), filter_In in Hx as [Hx _].
    exists x. split; [exact Hx | split; [exact Hb | reflexivity]].
Qed.

(** No reminder with identifier [k] is Pending. *)
Definition settled (k : string) (s : app) : Prop :=
  forall x, In x (reminders s) -> id x = k -> status x <> Pending.

Lemma evaluate_settled (now : Z) (k : string) (s : app) :
  settled k s ->
  settled k (fst (evaluate now s))
  /\ filter (fun x => String.eqb (id x) k) (became_due (snd (evaluate now s))) = [].
Proof.
  intros Hs. split.
  - intros y Hy Hid. rewrite evaluate_reminders in Hy.
    apply in_map_iff in Hy as (x & <- & Hx).
    destruct (mark_due_fields now x) as (Hi & _).
    destruct (mark_due_status now x) as [->|[Hp _]].
    + apply Hs; congruence.
    + exfalso. apply (Hs x Hx); congruence.
  - apply filter_none. intros y Hy.
    destruct (evaluate_became_due now s y Hy) as (x & Hx & Hb & ->).
    apply String.eqb_neq. destruct (mark_due_fields now x) as (-> & _).
    intros Hid. apply (Hs x Hx Hid).
    unfold becomes_due in Hb. destruct (status x); simpl in Hb; congruence.
Qed.

Lemma evaluate_all_settled (nows : list Z) (k : string) (s : app) :
  settled k s ->
  Forall (fun v => filter (fun x => String.eqb (id x) k) (became_due v) = [])
         (snd (evaluate_all nows s)).
Proof.
  revert s; induction nows as [|now rest IH]; intros s Hs; simpl; [constructor|].
  destruct (evaluate_settled now k s Hs) as [H1 H2].
  destruct (evaluate now s) as [s1 v1] eqn:E. simpl in H1, H2.
  destruct (evaluate_all rest s1) as [s2 vs] eqn:E2. simpl.
  constructor; [exact H2|]. specialize (IH s1 H1). rewrite E2 in IH. exact IH.
Qed.

(** * Claims *)

(** ** C1 *)

(** C1 (code_bug): on a positive delta the formatter appends the seconds
    component only when days, hours and minutes are all zero, so 3661 seconds
    render as "1h 1m" and 90 seconds as "1m", not "1h 1m 1s" and "1m 30s"
    (the docstring's own example is '2d 3h 5m 10s'). *)
Theorem format_timedelta_dhms_drops_seconds :
  format_timedelta_dhms 3661 = "1h 1m" /\ format_timedelta_dhms 90 = "1m"
  /\ format_timedelta_dhms (2*86400 + 3*3600 + 5*60 + 10) = "2d 3h 5m".
Proof. repeat split; reflexivity. Qed.

(** ** C2 *)

Lemma unit_seconds_options (u : string) :
  In u time_unit_options -> exists k, unit_seconds u = Some k /\ 1 <= k.
Proof.
  simpl. intros [<-|[<-|[<-|[<-|[]]]]]; unfold unit_seconds; simpl; eexists;
    split; try reflexivity; lia.
Qed.

Lemma unit_seconds_other (u : string) :
  ~ In u time_unit_options -> unit_seconds u = None.
Proof.
  intros Hn. unfold unit_seconds.
  destruct (String.eqb_spec u "seconds") as [->|];
    [exfalso; apply Hn; simpl; tauto|].
  destruct (String.eqb_spec u "minutes") as [->|];
    [exfalso; apply Hn; simpl; tauto|].
  destruct (String.eqb_spec u "hours") as [->|];
    [exfalso; apply Hn; simpl; tauto|].
  destruct (String.eqb_spec u "days") as [->|];
    [exfalso; apply Hn; simpl; tauto|].
  reflexivity.
Qed.

Lemma unit_seconds_pos (u : string) (k : Z) :
  unit_seconds u = Some k -> 1 <= k.
Proof.
  unfold unit_seconds.
  destruct (String.eqb u "seconds"); [intros [= <-]; lia|].
  destruct (String.eqb u "minutes"); [intros [= <-]; lia|].
  destruct (String.eqb u "hours"); [intros [= <-]; lia|].
  destruct (String.eqb u "days"); [intros [= <-]; lia|].
  discriminate.
Qed.

(** What the submit handler does with a non-empty task and a recognised
    unit: append the new reminder and save, or, past [datetime.max], raise
    before touching anything. *)
Lemma add_outcome (task_description time_unit new_id : string)
    (time_value t_due t_created k : Z) (s : app)
    (Htask : task_description <> "")
    (Hk : unit_seconds time_unit = Some k)
    (Hval : 1 <= time_value) (Hnow : 0 <= t_due) :
  (t_due + time_value * k <= DATETIME_MAX ->
     add task_description time_value time_unit new_id t_due t_created s
     = commit (reminders s ++ [mkReminder new_id task_description
                                 (t_due + time_value * k) t_created Pending None]))
  /\ (DATETIME_MAX < t_due + time_value * k ->
     add task_description time_value time_unit new_id t_due t_created s = s).
Proof.
  pose proof (unit_seconds_pos _ _ Hk) as Hk1.
  unfold add. destruct (String.eqb_spec task_description "") as [E|_];
    [contradiction|].
  unfold calculate_due_time. rewrite Hk. unfold timedelta, datetime_add.
  split; intros Hmax.
  - assert (Hd : 0 <= time_value * k / 86400 <= 999999999).
    { split; [apply Z.div_pos; nia|].
      apply Z.div_le_upper_bound; [lia|]. unfold DATETIME_MAX in Hmax. nia. }
    replace ((-999999999 <=? time_value * k / 86400)
             && (time_value * k / 86400 <=? 999999999)) with true
      by (symmetry; apply andb_true_iff; split; apply Z.leb_le; lia).
    replace ((0 <=? t_due + time_value * k) && (t_due + time_value * k <=? DATETIME_MAX))
      with true by (symmetry; apply andb_true_iff; split; apply Z.leb_le; nia).
    reflexivity.
  - destruct (_ && _); [|reflexivity].
    replace ((0 <=? t_due + time_value * k) && (t_due + time_value * k <=? DATETIME_MAX))
      with false; [reflexivity|].
    symmetry. apply andb_false_iff. right. apply Z.leb_gt. exact Hmax.
Qed.

(** C2 (counterexample): [calculate_due_time] does not fail on a unit outside
    the four: it reports the unit through [st.error] and returns [now]. *)
Lemma calculate_due_time_weeks :
  calculate_due_time 2 "weeks" 100 = Returns (100, Some "Unknown time unit: weeks").
Proof. reflexivity. Qed.

(** C2 (amended): no InvalidUnit failure exists. On a unit outside the four,
    [calculate_due_time] reports the unit and returns [now]. The form only
    submits one of the four units, with a value of at least 1; with a
    non-empty task, [add] then either appends a Pending reminder due
    [value * k] seconds after [now] and saves, or, when that time lies past
    [datetime.max], raises [OverflowError] and leaves the collection and
    the file as they were. *)
Theorem add_unit_outcomes (task_description time_unit new_id : string)
    (time_value t_due t_created : Z) (s : app)
    (Htask : task_description <> "")
    (Hunit : In time_unit time_unit_options)
    (Hval : 1 <= time_value) (Hnow : 0 <= t_due) :
  (forall u v now, ~ In u time_unit_options ->
     calculate_due_time v u now = Returns (now, Some ("Unknown time unit: " +s u)))
  /\ exists k, unit_seconds time_unit = Some k
     /\ (t_due + time_value * k <= DATETIME_MAX ->
          add task_description time_value time_unit new_id t_due t_created s
          = commit (reminders s ++ [mkReminder new_id task_description
                                      (t_due + time_value * k) t_created Pending None]))
     /\ (DATETIME_MAX < t_due + time_value * k ->
          add task_description time_value time_unit new_id t_due t_created s = s).
Proof.
  split.
  - intros u v now Hu. unfold calculate_due_time.
    rewrite unit_seconds_other by exact Hu. reflexivity.
  - destruct (unit_seconds_options time_unit Hunit) as (k & Hk & _).
    exists k. split; [exact Hk|].
    exact (add_outcome task_description time_unit new_id time_value t_due t_created
             k s Htask Hk Hval Hnow).
Qed.

Lemma add_unit_outcomes_witness :
  add "Buy milk" 10 "seconds" "id-1" 100 100 (mkApp [] None)
  = commit [mkReminder "id-1" "Buy milk" 110 100 Pending None]
  /\ add "Buy milk" 2 "days" "id-2" (DATETIME_MAX - 86400) 0 buy_milk = buy_milk.
Proof.
  assert (Htask : "Buy milk" <> "") by discriminate.
  assert (Hs : In "seconds" time_unit_options) by (simpl; auto).
  assert (Hd : In "days" time_unit_options) by (simpl; auto).
  split.
  - destruct (add_unit_outcomes "Buy milk" "seconds" "id-1" 10 100 100
                (mkApp [] None) Htask Hs ltac:(lia) ltac:(lia))
      as [_ (k & Hk & Hok & _)].
    assert (Ek : k = 1) by (vm_compute in Hk; congruence). subst k.
    exact (Hok ltac:(unfold DATETIME_MAX; lia)).
  - destruct (add_unit_outcomes "Buy milk" "days" "id-2" 2 (DATETIME_MAX - 86400) 0
                buy_milk Htask Hd ltac:(lia) ltac:(unfold DATETIME_MAX; lia))
      as [_ (k & Hk & _ & Hover)].
    assert (Ek : k = 86400) by (vm_compute in Hk; congruence). subst k.
    exact (Hover ltac:(lia)).
Defined.

(** ** C6 *)

(** C6: serialising a reminder and reading it back gives the same dict,
    [None] completion time included, and loading a saved collection gives
    the collection back. *)
Theorem save_load_roundtrip (r : reminder) (rs : list reminder) :
  deserialize_reminder (serialize_reminder (to_py r)) = to_py r
  /\ load_reminders_from_file (Some (save_reminders_to_file (map to_py rs)))
     = map to_py rs
  /\ load_reminders_from_file (file (commit rs)) = map to_py rs.
Proof.
  assert (Hone : forall r, deserialize_reminder (serialize_reminder (to_py r)) = to_py r).
  { intros x. destruct x as [i tk d c st [t|]];
      unfold deserialize_reminder, serialize_reminder, to_py; cbn;
      unfold fromisoformat, isoformat; rewrite ?HexString.to_Z_of_Z; try reflexivity.
    assert (E : (of_Z t =? "")%string = false) by (destruct t; reflexivity).
    rewrite E. reflexivity. }
  split; [apply Hone|].
  assert (Hall : load_reminders_from_file (Some (save_reminders_to_file (map to_py rs)))
                 = map to_py rs).
  { unfold load_reminders_from_file, save_reminders_to_file.
    induction rs as [|x t IH]; simpl; [reflexivity|].
    rewrite Hone. f_equal. exact IH. }
  split; [exact Hall|exact Hall].
Qed.

Lemma to_py_inj (r r' : reminder) : to_py r = to_py r' -> r = r'.
Proof.
  destruct r as [i tk d c st co], r' as [i' tk' d' c' st' co']; unfold to_py; simpl.
  intros H. injection H as Hi Htk Hd Hc Hst Hco. subst.
  assert (st = st') by (destruct st, st'; simpl in Hst; congruence). subst.
  f_equal. destruct co, co'; simpl in Hco; congruence.
Qed.

(** ** C7 *)

(** C7: Active holds exactly the Pending and Due reminders, ascending by
    [due_time]; Completed holds exactly the Completed ones, descending by
    [completed_at] or, when it is absent, [created_at]; no Dismissed reminder
    is in either list. *)
Theorem classify_spec (rs : list reminder) :
  let '(act, comp) := classify rs in
  Permutation act (filter (fun r => match status r with
                                    | Pending | Due => true | _ => false end) rs)
  /\ Sorted (fun a b => due_time a <= due_time b) act
  /\ Permutation comp (filter (fun r => match status r with
                                       | Completed => true | _ => false end) rs)
  /\ Sorted (fun a b => completed_key b <= completed_key a) comp
  /\ (forall r, In r act \/ In r comp -> status r <> Dismissed).
Proof.
  unfold classify.
  assert (Pa : Permutation (sort_by active_before (filter is_active rs))
                           (filter is_active rs)) by apply sort_by_perm.
  assert (Pc : Permutation (sort_by completed_before (filter is_completed rs))
                           (filter is_completed rs)) by apply sort_by_perm.
  split; [exact Pa|split; [|split; [exact Pc|split]]].
  - apply sort_by_sorted; unfold active_before; intros x y H.
    + apply Z.ltb_lt in H. lia.
    + apply Z.ltb_ge in H. lia.
  - apply sort_by_sorted; unfold completed_before; intros x y H.
    + apply Z.ltb_lt in H. lia.
    + apply Z.ltb_ge in H. lia.
  - intros r [H|H].
    + apply (Permutation_in _ Pa), filter_In in H as [_ H].
      apply guard_not_dismissed. rewrite H. reflexivity.
    + apply (Permutation_in _ Pc), filter_In in H as [_ H].
      apply guard_not_dismissed. rewrite H, orb_true_r. reflexivity.
Qed.

(** ** C3 *)

(** C3 (counterexample): dismissing a Completed reminder keeps its
    [completed_at], so a Dismissed reminder carries a completion time. *)
Lemma dismiss_completed_keeps_completed_at :
  let s := mkApp [mkReminder "id-1" "Buy milk" 110 100 Completed (Some 120)] None in
  nth_error (reminders (dismiss 0 s)) 0
  = Some (mkReminder "id-1" "Buy milk" 110 100 Dismissed (Some 120)).
Proof. reflexivity. Qed.

(** C3 (amended): along every sequence of operations, a Pending or Due
    reminder has no [completed_at] and a Completed one has one; dismissing a
    Completed reminder sets its status only and keeps its [completed_at]. *)
Theorem completed_at_invariant (s s' : app)
    (Hreach : clos_refl_trans app step s s')
    (Hs : Forall completed_at_consistent (reminders s)) :
  Forall completed_at_consistent (reminders s')
  /\ (forall i r, nth_error (reminders s') i = Some r -> status r = Completed ->
        nth_error (reminders (dismiss i s')) i = Some (with_status Dismissed r)).
Proof.
  split.
  - induction Hreach as [x y Hxy|x|x y z _ IH1 _ IH2]; auto.
    exact (step_consistent x y Hxy Hs).
  - intros i r Hi Hc. unfold dismiss. rewrite Hi.
    unfold is_completed. rewrite Hc, orb_true_r.
    apply nth_error_update_nth_eq, Hi.
Qed.

Lemma completed_at_invariant_witness :
  let s := mkApp [] None in
  let s' := complete 0 120 (add "Buy milk" 10 "seconds" "id-1" 100 100 s) in
  Forall completed_at_consistent (reminders s')
  /\ nth_error (reminders (dismiss 0 s')) 0
     = Some (mkReminder "id-1" "Buy milk" 110 100 Dismissed (Some 120)).
Proof.
  intros s s'.
  assert (Hreach : clos_refl_trans app step s s').
  { apply rt_trans with (add "Buy milk" 10 "seconds" "id-1" 100 100 s);
      apply rt_step; constructor; simpl; auto; lia. }
  destruct (completed_at_invariant s s' Hreach (Forall_nil _)) as [H1 H2].
  split; [exact H1|].
  exact (H2 0%nat (mkReminder "id-1" "Buy milk" 110 100 Completed (Some 120))
            eq_refl eq_refl).
Defined.

(** ** C8 *)

(** C8 (counterexample): [due_time] and [created_at] come from two clock
    readings; when the second is taken more than the offset after the first,
    the new reminder is due before it was created. *)
Lemma add_due_before_created :
  let s := add "Buy milk" 1 "seconds" "id-1" 100 102 (mkApp [] None) in
  map (fun r => (due_time r, created_at r)) (reminders s) = [(101, 102)].
Proof. reflexivity. Qed.

(** C8 (amended): [due_time] and [created_at] come from the clock readings
    [t_due] and [t_created]. With a value of at least 1 and one of the four
    units ([k] seconds each), [add] appends a reminder whenever
    [t_due + value * k] is within the datetime range, and raises, appending
    nothing, past it. A reminder it appends has [due_time >= created_at]
    exactly when [t_created <= t_due + value * k]. No operation ever changes
    the [due_time] or [created_at] of a reminder. *)
Theorem add_due_not_before_created (task_description time_unit new_id : string)
    (time_value t_due t_created k : Z) (s : app)
    (Htask : task_description <> "")
    (Hunit : unit_seconds time_unit = Some k)
    (Hval : 1 <= time_value) (Hnow : 0 <= t_due) :
  (t_due + time_value * k <= DATETIME_MAX ->
     exists r, reminders (add task_description time_value time_unit new_id
                            t_due t_created s) = reminders s ++ [r])
  /\ (DATETIME_MAX < t_due + time_value * k ->
     reminders (add task_description time_value time_unit new_id t_due t_created s)
     = reminders s)
  /\ (forall r, reminders (add task_description time_value time_unit new_id
                             t_due t_created s) = reminders s ++ [r] ->
       (created_at r <= due_time r <-> t_created <= t_due + time_value * k))
  /\ (forall s1 s2 i r, clos_refl_trans app step s1 s2 ->
        nth_error (reminders s1) i = Some r ->
        exists r', nth_error (reminders s2) i = Some r'
          /\ due_time r' = due_time r /\ created_at r' = created_at r).
Proof.
  destruct (add_outcome task_description time_unit new_id time_value t_due t_created
              k s Htask Hunit Hval Hnow) as [Hok Hover].
  split; [|split; [|split]].
  - intros Hmax. rewrite (Hok Hmax). eexists. reflexivity.
  - intros Hmax. rewrite (Hover Hmax). reflexivity.
  - intros r Hr.
    destruct (Z_le_gt_dec (t_due + time_value * k) DATETIME_MAX) as [Hmax|Hmax].
    + rewrite (Hok Hmax) in Hr. cbn [reminders commit] in Hr.
      apply app_inj_tail in Hr as [_ <-]. simpl. reflexivity.
    + rewrite (Hover (Z.gt_lt _ _ Hmax)) in Hr.
      apply (f_equal (@length reminder)) in Hr. rewrite length_app in Hr.
      simpl in Hr. lia.
  - intros s1 s2 i r Hreach Hi.
    destruct (reach_slot s1 s2 i r Hreach Hi) as (r' & H & (_ & _ & Hd & Hc) & _).
    exists r'. auto.
Qed.

Lemma add_due_not_before_created_witness :
  exists r,
    reminders (add "Buy milk" 10 "seconds" "id-1" 100 100 (mkApp [] None)) = [r]
    /\ created_at r <= due_time r.
Proof.
  assert (Hk : unit_seconds "seconds" = Some 1) by reflexivity.
  assert (Htask : "Buy milk" <> "") by discriminate.
  destruct (add_due_not_before_created "Buy milk" "seconds" "id-1" 10 100 100 1
              (mkApp [] None) Htask Hk ltac:(lia) ltac:(lia))
    as (Hex & _ & Hiff & _).
  destruct (Hex ltac:(unfold DATETIME_MAX; lia)) as [r Hr].
  exists r. split; [exact Hr|]. apply (Hiff r Hr). lia.
Defined.

(** ** C9 *)

(** C9: a Dismissed reminder is never changed again by any sequence of
    operations. *)
Theorem dismissed_terminal (s s' : app) (i : nat) (r : reminder)
    (Hreach : clos_refl_trans app step s s')
    (Hi : nth_error (reminders s) i = Some r)
    (Hd : status r = Dismissed) :
  nth_error (reminders s') i = Some r.
Proof.
  destruct (reach_slot s s' i r Hreach Hi) as (r' & H & _ & E).
  rewrite <- (E Hd). exact H.
Qed.

Lemma dismissed_terminal_witness :
  let s := dismiss 0 (add "Buy milk" 10 "seconds" "id-1" 100 100 (mkApp [] None)) in
  let s' := uncomplete 0 (complete 0 200 (fst (evaluate 200 s))) in
  nth_error (reminders s') 0
  = Some (mkReminder "id-1" "Buy milk" 110 100 Dismissed None).
Proof.
  intros s s'.
  assert (Hreach : clos_refl_trans app step s s').
  { apply rt_trans with (complete 0 200 (fst (evaluate 200 s))).
    - apply rt_trans with (fst (evaluate 200 s)); apply rt_step; constructor.
    - apply rt_step; constructor. }
  exact (dismissed_terminal s s' 0 _ Hreach eq_refl eq_refl).
Defined.

(** ** C10 *)

(** C10: dismiss sets the status of the reminder it acts on to Dismissed and
    changes nothing else: its other fields, [completed_at] included, and
    every other reminder stay as they were. *)
Theorem dismiss_frame (s : app) (i : nat) (r : reminder)
    (Hi : nth_error (reminders s) i = Some r) :
  length (reminders (dismiss i s)) = length (reminders s)
  /\ (exists r', nth_error (reminders (dismiss i s)) i = Some r'
        /\ status r' = Dismissed /\ id r' = id r /\ task r' = task r
        /\ due_time r' = due_time r /\ created_at r' = created_at r
        /\ completed_at r' = completed_at r)
  /\ (forall j, j <> i -> nth_error (reminders (dismiss i s)) j = nth_error (reminders s) j).
Proof.
  unfold dismiss. rewrite Hi.
  destruct (is_active r || is_completed r) eqn:G.
  - cbn [reminders commit]. split; [apply length_update_nth|split].
    + exists (with_status Dismissed r).
      rewrite (nth_error_update_nth_eq i _ _ r Hi). repeat split.
    + intros j Hj. apply nth_error_update_nth_neq, Hj.
  - split; [reflexivity|split; [|reflexivity]].
    exists r. repeat split; auto.
    unfold is_active, is_completed in G. destruct (status r); simpl in G; congruence.
Qed.

Lemma dismiss_frame_witness :
  let s := mkApp [mkReminder "id-1" "Buy milk" 110 100 Completed (Some 120);
                  mkReminder "id-2" "Call mom" 300 100 Pending None] None in
  nth_error (reminders (dismiss 0 s)) 0
    = Some (mkReminder "id-1" "Buy milk" 110 100 Dismissed (Some 120))
  /\ nth_error (reminders (dismiss 0 s)) 1 = nth_error (reminders s) 1.
Proof.
  intros s.
  destruct (dismiss_frame s 0 _ eq_refl) as (_ & _ & H).
  split; [reflexivity|]. apply H. discriminate.
Defined.

(** ** C4 *)

(** C4: a second render pass at the same time changes nothing, renders the
    same Active and Completed lists and raises no notification. *)
Theorem evaluate_idempotent (now : Z) (s : app) :
  let '(s1, v1) := evaluate now s in
  let '(s2, v2) := evaluate now s1 in
  s2 = s1 /\ active v2 = active v1 /\ completed v2 = completed v1
  /\ became_due v2 = [].
Proof.
  pose proof (evaluate_reminders now s) as Hr1.
  destruct (evaluate now s) as [s1 v1] eqn:E1. cbn [fst] in Hr1.
  rewrite (evaluate_marked now s1 (reminders s) Hr1).
  destruct (reminders s) as [|x t] eqn:Hrs.
  - unfold evaluate in E1. rewrite Hrs in E1. injection E1 as <- <-.
    repeat split.
  - rewrite (evaluate_cons now s x t Hrs) in E1. injection E1 as _ <-.
    repeat split.
Qed.

(** ** C5 *)

(** C5: with identifiers unique in the collection, a Pending reminder whose
    [due_time] has passed turns Due on the next render pass, is notified
    exactly once by it, and by no later render pass, at whatever times. *)
Theorem pending_due_once (now : Z) (nows : list Z) (s : app) (r : reminder)
    (Hnd : NoDup (map id (reminders s)))
    (Hin : In r (reminders s))
    (Hp : status r = Pending)
    (Hdue : due_time r <= now) :
  let '(s1, v1) := evaluate now s in
  In (with_status Due r) (reminders s1)
  /\ length (filter (fun x => String.eqb (id x) (id r)) (became_due v1)) = 1%nat
  /\ Forall (fun v => filter (fun x => String.eqb (id x) (id r)) (became_due v) = [])
            (snd (evaluate_all nows s1)).
Proof.
  assert (Hb : becomes_due now r = true).
  { unfold becomes_due. rewrite Hp. simpl. apply Z.leb_le. lia. }
  assert (Hm : mark_due now r = with_status Due r).
  { unfold mark_due. rewrite Hb. reflexivity. }
  pose proof (evaluate_reminders now s) as Hr1.
  pose proof (evaluate_became_due now s) as Hbd.
  destruct (evaluate now s) as [s1 v1] eqn:E1. cbn [fst snd] in Hr1, Hbd.
  split; [|split].
  - rewrite Hr1, <- Hm. apply in_map, Hin.
  - destruct (reminders s) as [|z t] eqn:Hrs; [destruct Hin|].
    rewrite (evaluate_cons now s z t Hrs) in E1. injection E1 as _ <-.
    cbn [became_due].
    rewrite (filter_map_comm _ (mark_due now))
      by (intros a; destruct (mark_due_fields now a) as (-> & _); reflexivity).
    rewrite length_map.
    rewrite (Permutation_length (Permutation_filter_bool _ _ _
               (Permutation_filter_bool _ _ _ (sort_by_perm active_before _)))).
    rewrite filter_filter_comm.
    replace (if is_active z then z :: filter is_active t else filter is_active t)
      with (filter is_active (z :: t)) by reflexivity.
    rewrite (filter_filter_comm _ is_active).
    rewrite (filter_id_nodup (z :: t) r Hnd Hin). simpl.
    rewrite (becomes_due_is_active now r Hb). simpl. rewrite Hb. reflexivity.
  - apply evaluate_all_settled. intros y Hy Hid.
    rewrite Hr1 in Hy. apply in_map_iff in Hy as (x & <- & Hx).
    destruct (mark_due_fields now x) as (Hi & _). rewrite Hi in Hid.
    rewrite (id_unique _ x r Hnd Hx Hin Hid), Hm. discriminate.
Qed.

Lemma pending_due_once_witness :
  let '(s1, v1) := evaluate 111 buy_milk in
  In (mkReminder "id-1" "Buy milk" 110 100 Due None) (reminders s1)
  /\ length (filter (fun x => String.eqb (id x) "id-1") (became_due v1)) = 1%nat
  /\ Forall (fun v => filter (fun x => String.eqb (id x) "id-1") (became_due v) = [])
            (snd (evaluate_all [111; 115; 200] s1)).
Proof.
  exact (pending_due_once 111 [111; 115; 200] buy_milk
           (mkReminder "id-1" "Buy milk" 110 100 Pending None)
           ltac:(repeat constructor; simpl; tauto) (or_introl eq_refl) eq_refl
           ltac:(simpl; lia)).
Defined.

(** * Further properties of the code *)

(** ** The duration formatter *)

(** X1: a delta of less than a minute renders as its seconds, and the same
    amount overdue as "Overdue by <s>s!". *)
Theorem format_sub_minute (s : Z) (Hs : 0 < s < 60) :
  format_timedelta_dhms s = str_int s +s "s"
  /\ format_timedelta_dhms (- s) = "Overdue by " +s (str_int s +s "s") +s "!".
Proof.
  assert (D1 : s / 86400 = 0) by (apply Z.div_small; lia).
  assert (M1 : s mod 86400 = s) by (apply Z.mod_small; lia).
  assert (D2 : s / 3600 = 0) by (apply Z.div_small; lia).
  assert (M2 : s mod 3600 = s) by (apply Z.mod_small; lia).
  assert (D3 : s / 60 = 0) by (apply Z.div_small; lia).
  assert (M3 : s mod 60 = s) by (apply Z.mod_small; lia).
  assert (P : (s >? 0) = true) by (apply Z.gtb_lt; lia).
  split; unfold format_timedelta_dhms; cbv zeta.
  - replace (s <=? 0) with false by (symmetry; apply Z.leb_gt; lia).
    rewrite D1, M1, D2, M2, D3, M3. reflexivity.
  - replace (- s <=? 0) with true by (symmetry; apply Z.leb_le; lia).
    replace (Z.abs (- s)) with s by lia.
    rewrite D1, M1, D2, M2, D3, M3, P. reflexivity.
Qed.

Lemma format_sub_minute_witness :
  format_timedelta_dhms 59 = "59s"
  /\ format_timedelta_dhms (-59) = "Overdue by 59s!".
Proof.
  exact (format_sub_minute 59 ltac:(lia)).
Defined.

(** ** The complete and uncomplete handlers *)

Lemma update_nth_compose {A} (n : nat) (f g : A -> A) (l : list A) :
  update_nth n g (update_nth n f l) = update_nth n (fun x => g (f x)) l.
Proof.
  revert n; induction l as [|x t IH]; intros [|n]; simpl; f_equal; auto.
Qed.

Lemma update_nth_same {A} (n : nat) (f : A -> A) (l : list A) (x : A) :
  nth_error l n = Some x -> f x = x -> update_nth n f l = l.
Proof.
  revert n; induction l as [|y t IH]; intros [|n] Hn Hf; simpl in *;
    try discriminate.
  - injection Hn as ->. now rewrite Hf.
  - f_equal. now apply IH.
Qed.

(** X6: checking and then un-checking a Pending reminder without a
    completion time gives back the same collection; on a Due reminder it
    gives the collection with that reminder back in Pending. *)
Theorem complete_uncomplete (s : app) (i : nat) (now : Z) (r : reminder)
    (Hi : nth_error (reminders s) i = Some r)
    (Ha : is_active r = true) (Hc : completed_at r = None) :
  reminders (uncomplete i (complete i now s))
  = update_nth i (with_status Pending) (reminders s)
  /\ (status r = Pending -> reminders (uncomplete i (complete i now s)) = reminders s).
Proof.
  assert (Hstep : reminders (uncomplete i (complete i now s))
                  = update_nth i (with_status Pending) (reminders s)).
  { unfold complete. rewrite Hi, Ha.
    assert (E : Status_eqb (status r) Completed = false).
    { unfold is_active in Ha. destruct (status r); simpl in *; congruence. }
    rewrite E. cbn [andb negb].
    unfold uncomplete. cbn [reminders commit].
    rewrite (nth_error_update_nth_eq _ _ _ r Hi). simpl is_completed. cbv iota.
    cbn [reminders commit]. rewrite update_nth_compose.
    revert Hi. generalize (reminders s) as l. clear -Hc. intros l. revert i.
    induction l as [|x t IH]; intros [|i] Hi; simpl in *; try discriminate.
    + injection Hi as ->. unfold with_status, with_completed_at. simpl.
      rewrite Hc. reflexivity.
    + f_equal. apply IH, Hi. }
  split; [exact Hstep|].
  intros Hp. rewrite Hstep. apply (update_nth_same _ _ _ r Hi).
  destruct r; simpl in *; subst; reflexivity.
Qed.

Lemma complete_uncomplete_witness :
  reminders (uncomplete 0 (complete 0 120 buy_milk)) = reminders buy_milk.
Proof.
  exact (proj2 (complete_uncomplete buy_milk 0 120
                  (mkReminder "id-1" "Buy milk" 110 100 Pending None)
                  eq_refl eq_refl eq_refl) eq_refl).
Defined.

(** ** Identifiers *)



(** ** The render pass *)

Lemma filter_all_true {A} (f : A -> bool) (l : list A) :
  (forall x, In x l -> f x = true) -> filter f l = l.
Proof.
  induction l as [|x t IH]; intros H; simpl; [reflexivity|].
  rewrite (H x (or_introl eq_refl)). f_equal. apply IH. intros y Hy. apply H. now right.
Qed.

Lemma evaluate_notifies (now : Z) (s : app) (x : reminder) :
  In x (reminders s) -> becomes_due now x = true ->
  In (mark_due now x) (became_due (snd (evaluate now s)))
  /\ fst (evaluate now s) = commit (map (mark_due now) (reminders s)).
Proof.
  intros Hx Hb. destruct (reminders s) as [|z t] eqn:Hrs; [destruct Hx|].
  rewrite (evaluate_cons now s z t Hrs). cbv zeta. cbn [fst snd became_due].
  assert (Hin : In x (filter (becomes_due now)
                  (sort_by active_before (filter is_active (z :: t))))).
  { apply filter_In. split; [|exact Hb].
    eapply Permutation_in; [apply Permutation_sym, sort_by_perm|].
    apply filter_In. split; [exact Hx | now apply becomes_due_is_active with now]. }
  split; [apply in_map, Hin|].
  destruct (filter (becomes_due now) _) as [|y u]; [destruct Hin|reflexivity].
Qed.

(** X9: after a render pass at [now], no reminder of the collection is
    still Pending with a due time at or before [now]. *)
Theorem evaluate_no_overdue_pending (now : Z) (s : app) (x : reminder)
    (Hx : In x (reminders (fst (evaluate now s)))) (Hp : status x = Pending) :
  now < due_time x.
Proof.
  rewrite evaluate_reminders in Hx. apply in_map_iff in Hx as (y & <- & Hy).
  destruct (becomes_due now y) eqn:Hb.
  - unfold mark_due in Hp. rewrite Hb in Hp. discriminate.
  - rewrite (mark_due_not_becoming now y Hb) in Hp |- *.
    unfold becomes_due in Hb. rewrite Hp in Hb. simpl in Hb.
    apply Z.leb_gt in Hb. lia.
Qed.

Lemma evaluate_no_overdue_pending_witness :
  let s := add "Call mom" 60 "seconds" "id-2" 100 100 buy_milk in
  nth_error (reminders (fst (evaluate 111 s))) 1
    = Some (mkReminder "id-2" "Call mom" 160 100 Pending None)
  /\ 111 < 160.
Proof.
  intros s.
  assert (H : nth_error (reminders (fst (evaluate 111 s))) 1
              = Some (mkReminder "id-2" "Call mom" 160 100 Pending None))
    by reflexivity.
  split; [exact H|].
  exact (evaluate_no_overdue_pending 111 s _ (nth_error_In _ 1 H) eq_refl).
Defined.

(** X10: the reminders a render pass notifies are Due members of the updated
    collection, one for each reminder that was Pending with a due time at or
    before [now]. *)
Theorem evaluate_became_due_spec (now : Z) (s : app) :
  (forall y, In y (became_due (snd (evaluate now s))) ->
     status y = Due /\ In y (reminders (fst (evaluate now s))))
  /\ length (became_due (snd (evaluate now s)))
     = length (filter (becomes_due now) (reminders s)).
Proof.
  split.
  - intros y Hy. destruct (evaluate_became_due now s y Hy) as (x & Hx & Hb & ->).
    split.
    + unfold mark_due. rewrite Hb. reflexivity.
    + rewrite evaluate_reminders. apply in_map, Hx.
  - destruct (reminders s) as [|z t] eqn:Hrs.
    + unfold evaluate. rewrite Hrs. reflexivity.
    + rewrite (evaluate_cons now s z t Hrs). cbv zeta. cbn [snd became_due].
      rewrite length_map.
      rewrite (Permutation_length (Permutation_filter_bool _ _ _
                 (sort_by_perm active_before _))).
      rewrite filter_filter_comm, filter_all_true; [reflexivity|].
      intros x Hx. apply filter_In in Hx as [_ Hx].
      apply becomes_due_is_active with now, Hx.
Qed.

(** X11: a render pass saves the file only when some reminder turns Due;
    otherwise it leaves the application state, file included, untouched. *)
Theorem evaluate_writes_only_on_transition (now : Z) (s : app) :
  ((forall x, In x (reminders s) -> becomes_due now x = false) ->
     fst (evaluate now s) = s)
  /\ ((exists x, In x (reminders s) /\ becomes_due now x = true) ->
     fst (evaluate now s) = commit (map (mark_due now) (reminders s))).
Proof.
  split.
  - intros Hnone. destruct (reminders s) as [|z t] eqn:Hrs.
    + unfold evaluate. rewrite Hrs. reflexivity.
    + rewrite (evaluate_cons now s z t Hrs). cbv zeta. cbn [fst].
      rewrite (filter_none (becomes_due now)); [reflexivity|].
      intros x Hx. apply Hnone.
      apply (Permutation_in _ (sort_by_perm _ _)), filter_In in Hx as [Hx _].
      exact Hx.
  - intros (x & Hx & Hb). exact (proj2 (evaluate_notifies now s x Hx Hb)).
Qed.

Lemma evaluate_writes_only_on_transition_witness :
  fst (evaluate 105 buy_milk) = buy_milk
  /\ fst (evaluate 111 buy_milk)
     = commit [mkReminder "id-1" "Buy milk" 110 100 Due None].
Proof.
  split.
  - apply (proj1 (evaluate_writes_only_on_transition 105 buy_milk)).
    intros x [<-|[]]. reflexivity.
  - apply (proj2 (evaluate_writes_only_on_transition 111 buy_milk)).
    exists (mkReminder "id-1" "Buy milk" 110 100 Pending None).
    split; [left; reflexivity | reflexivity].
Defined.

(** X12: the Active list a render pass shows is the classification of the
    collection after its pending-to-due transitions: its Pending and Due
    reminders, sorted by due time. *)
Theorem evaluate_active_view (now : Z) (s : app) :
  active (snd (evaluate now s))
  = sort_by active_before (filter is_active (reminders (fst (evaluate now s))))
  /\ completed (snd (evaluate now s))
     = sort_by completed_before (filter is_completed (reminders (fst (evaluate now s)))).
Proof.
  rewrite evaluate_reminders.
  destruct (reminders s) as [|z t] eqn:Hrs.
  - unfold evaluate. rewrite Hrs. split; reflexivity.
  - rewrite (evaluate_cons now s z t Hrs). cbv zeta. cbn [snd active completed].
    rewrite filter_completed_marked.
    rewrite (filter_map_comm is_active (mark_due now)) by apply is_active_mark_due.
    rewrite sort_by_map by apply active_before_mark_due.
    split; reflexivity.
Qed.

(** X13: un-checking a Completed reminder whose due time has passed puts it
    back to Pending, and the next render pass turns it Due and notifies it
    again. *)
Theorem reactivated_overdue_notified_again (s : app) (i : nat) (now : Z) (r : reminder)
    (Hi : nth_error (reminders s) i = Some r)
    (Hc : status r = Completed) (Hd : due_time r <= now) :
  In (mkReminder (id r) (task r) (due_time r) (created_at r) Due None)
     (became_due (snd (evaluate now (uncomplete i s)))).
Proof.
  pose (r' := with_completed_at None (with_status Pending r)).
  assert (Hin : In r' (reminders (uncomplete i s))).
  { unfold uncomplete, is_completed. rewrite Hi, Hc. cbn [reminders commit].
    apply (nth_error_In _ i).
    exact (nth_error_update_nth_eq i
             (fun x => with_completed_at None (with_status Pending x)) _ r Hi). }
  assert (Hb : becomes_due now r' = true).
  { unfold becomes_due. simpl. apply Z.leb_le. lia. }
  destruct (evaluate_notifies now _ r' Hin Hb) as [H _].
  unfold mark_due in H. rewrite Hb in H. exact H.
Qed.

Lemma reactivated_overdue_notified_again_witness :
  let s := mkApp [mkReminder "id-1" "Buy milk" 110 100 Completed (Some 105)] None in
  In (mkReminder "id-1" "Buy milk" 110 100 Due None)
     (became_due (snd (evaluate 200 (uncomplete 0 s)))).
Proof.
  intros s.
  exact (reactivated_overdue_notified_again s 0 200 _ eq_refl eq_refl ltac:(simpl; lia)).
Defined.

(** ** The refresh loop *)

Lemma sort_by_nil {A} (before : A -> A -> bool) (l : list A) :
  sort_by before l = [] <-> l = [].
Proof.
  split; [|intros ->; reflexivity].
  intros H. apply Permutation_nil. rewrite <- H. apply sort_by_perm.
Qed.

(** X14: the page keeps polling exactly while the Active list is non-empty,
    and a render pass never changes whether it polls. *)
Theorem refresh_iff_active (rs : list reminder) (now : Z) (s : app) :
  (active_reminders_exist rs = true <-> fst (classify rs) <> [])
  /\ active_reminders_exist (reminders (fst (evaluate now s)))
     = active_reminders_exist (reminders s).
Proof.
  assert (Hact : forall l, active_reminders_exist l = existsb is_active l).
  { intros l. induction l as [|r t IH]; [reflexivity|].
    change (existsb (Status_eqb (status r)) [Pending; Due] || active_reminders_exist t
            = is_active r || existsb is_active t).
    rewrite IH. unfold is_active. destruct (status r); reflexivity. }
  rewrite !Hact.
  split.
  - unfold classify. cbn [fst]. rewrite sort_by_nil, existsb_exists. split.
    + intros (x & Hx & Ha) Hnil.
      assert (Hin : In x (filter is_active rs)) by (apply filter_In; auto).
      rewrite Hnil in Hin. destruct Hin.
    + intros Hne. destruct (filter is_active rs) as [|x u] eqn:Hf; [congruence|].
      exists x. apply filter_In. rewrite Hf. left; reflexivity.
  - rewrite evaluate_reminders. generalize (reminders s) as l.
    induction l as [|x t IH]; simpl; [reflexivity|].
    rewrite is_active_mark_due, IH. reflexivity.
Qed.
